(** * The extension registry of emesene ([extension.py])

    A shallow embedding of the module [extension]: categories of
    extensions, registration with a name-based interface check, the
    default extension of a category and the identity given to a class.

    Python objects are modelled as follows.
    - A class object is a record [PyClass]: its object identity ([id(cls)]),
      its [__module__], its [__name__] and its attribute table (every name
      [getattr] finds on the class, with whether the value is callable).
    - A dict is a [gmap]; a dict keyed by class objects is keyed by the whole
      record, object identity included, so two distinct class objects are two
      distinct keys even when they agree on everything else.
    - A function that mutates an object and may raise is a function from the
      state before to an outcome (a value or an exception) and the state
      after: what was written before a [raise] stays written. *)

From Stdlib Require Import String Ascii List.
From stdpp Require Import gmap strings.

Local Open Scope string_scope.

(** ** Python values the module handles *)

Inductive attr_kind :=
| Method   (* a callable value: a function, a method, a class *)
| Data.    (* any value that is not callable *)

Record PyClass := mkClass {
  cls_addr : positive;                       (* id(cls) *)
  cls_module : string;                       (* cls.__module__ *)
  cls_name : string;                         (* cls.__name__ *)
  cls_attrs : list (string * attr_kind)      (* name -> value kind, first hit wins *)
}.

(** What [category_register] receives as an interface: [None] or a class. *)
Inductive interface :=
| INone
| IClass (c : PyClass).

(** ** Exceptions and outcomes *)

(** The two messages [extension.py] gives to [ValueError]. *)
Inductive message :=
| MsgInterface (i : interface)     (* "cls doesn't agree to the interface: %s" % str(interface) *)
| MsgUnregisteredId (category : string). (* 'extension id not registered on %s' % (self.name,) *)

Inductive exn :=
| ValueError (m : message)
| KeyError (key : string)
| AttributeError (attr : string)
| TypeError.

Inductive outcome (A : Type) :=
| Return (a : A)
| Raise (e : exn).
Arguments Return {A} a.
Arguments Raise {A} e.

Global Instance attr_kind_eq_dec : EqDecision attr_kind.
Proof. solve_decision. Defined.

Global Instance attr_kind_countable : Countable attr_kind.
Proof.
  refine (inj_countable' (fun k => match k with Method => true | Data => false end)
                         (fun b : bool => if b then Method else Data) _).
  by intros [].
Defined.

Global Instance PyClass_eq_dec : EqDecision PyClass.
Proof. solve_decision. Defined.

Global Instance PyClass_countable : Countable PyClass.
Proof.
  refine (inj_countable'
            (fun c => (cls_addr c, cls_module c, cls_name c, cls_attrs c))
            (fun t => match t with (a, m, n, l) => mkClass a m n l end) _).
  by intros [].
Defined.

(** ** State-and-exception monad *)

Definition Py (S A : Type) : Type := S -> outcome A * S.

Definition ret {S A} (a : A) : Py S A := fun s => (Return a, s).
Definition raise {S A} (e : exn) : Py S A := fun s => (Raise e, s).
Definition bind {S A B} (m : Py S A) (k : A -> Py S B) : Py S B :=
  fun s => match m s with
           | (Return a, s') => k a s'
           | (Raise e, s') => (Raise e, s')
           end.
Definition get {S} : Py S S := fun s => (Return s, s).
Definition modify {S} (f : S -> S) : Py S unit := fun s => (Return tt, f s).
(** A computation that cannot touch the state, run inside a stateful one. *)
Definition lift {S A} (o : outcome A) : Py S A := fun s => (o, s).

Notation "x <- m ;; k" := (bind m (fun x => k))
  (at level 100, m at next level, right associativity).
Notation "m ;;; k" := (bind m (fun _ => k))
  (at level 100, right associativity).

(** ** String operations of Python used by the module *)

(** [s.startswith(p)] *)
Definition startswith (s p : string) : bool := String.prefix p s.

(** [s.endswith(p)] *)
Definition endswith (s p : string) : bool :=
  (String.length p <=? String.length s)%nat &&
  String.eqb (substring (String.length s - String.length p) (String.length p) s) p.

(** [s[:-1]] *)
Definition drop_last (s : string) : string :=
  substring 0 (String.length s - 1) s.

(** ** Attributes of a class *)

(** [getattr(cls, name)], as far as the kind of the value goes. *)
Fixpoint lookup_attr (attrs : list (string * attr_kind)) (name : string)
  : option attr_kind :=
  match attrs with
  | [] => None
  | (n, k) :: rest => if String.eqb n name then Some k else lookup_attr rest name
  end.

(** [hasattr(cls, name)] *)
Definition hasattr (cls : PyClass) (name : string) : bool :=
  match lookup_attr (cls_attrs cls) name with Some _ => true | None => false end.

(** [dir(None)]: only names that begin and end with two underscores. *)
Definition dir_None : list string :=
  [ "__class__"; "__delattr__"; "__doc__"; "__format__"; "__getattribute__";
    "__hash__"; "__init__"; "__new__"; "__reduce__"; "__reduce_ex__";
    "__repr__"; "__setattr__"; "__sizeof__"; "__str__"; "__subclasshook__" ].

(** [dir(interface_cls)] *)
Definition dir (i : interface) : list string :=
  match i with
  | INone => dir_None
  | IClass c => map fst (cls_attrs c)
  end.

(** ** [is_implementation] *)

(** The loop [for method in ...: if not hasattr(cls, method): return False]
    followed by [return True]. *)
Fixpoint all_present (cls : PyClass) (methods : list string) : bool :=
  match methods with
  | [] => true
  | method :: rest =>
      if negb (hasattr cls method) then false else all_present cls rest
  end.

Definition is_implementation (cls : PyClass) (interface_cls : interface) : bool :=
  all_present cls
    (List.filter (fun attribute => negb (startswith attribute "_")) (dir interface_cls)).

(** ** [_get_class_name] *)

(** What [_get_class_name] reads from the interpreter: [sys.modules], here
    module name -> [__file__] ([None] for a module without one, such as a
    built-in module), and [os.path.abspath]. *)
Record Env := mkEnv {
  sys_modules : gmap string (option string);
  os_path_abspath : string -> string
}.

Definition _get_class_name (E : Env) (cls : PyClass) : outcome string :=
  match sys_modules E !! cls_module cls with
  | None => Raise (KeyError (cls_module cls))
  | Some None => Raise (AttributeError "__file__")
  | Some (Some file) =>
      let path := os_path_abspath E file in
      let path := if endswith path ".pyc" then drop_last path else path in
      Return (path ++ ":" ++ cls_name cls)
  end.

(** ** [class Category] *)

Module Category.

(** The attributes [__init__] sets on [self]; [default_id] is [None] until
    the setter of the property [default] has run once. *)
Record t := mk {
  name : string;
  system_default : PyClass;
  interfaces : list interface;
  classes : gmap string PyClass;        (* id: class *)
  instances : gmap string PyClass;
  ids : gmap PyClass string;            (* class: id *)
  default_id : option string
}.

Definition set_classes (f : gmap string PyClass -> gmap string PyClass) (self : t) : t :=
  mk (name self) (system_default self) (interfaces self) (f (classes self))
     (instances self) (ids self) (default_id self).
Definition set_ids (f : gmap PyClass string -> gmap PyClass string) (self : t) : t :=
  mk (name self) (system_default self) (interfaces self) (classes self)
     (instances self) (f (ids self)) (default_id self).
Definition set_default_id (d : string) (self : t) : t :=
  mk (name self) (system_default self) (interfaces self) (classes self)
     (instances self) (ids self) (Some d).

(** The loop at the head of [register]: the first interface [cls] does not
    implement raises. *)
Fixpoint check_interfaces (cls : PyClass) (ifs : list interface) : outcome unit :=
  match ifs with
  | [] => Return tt
  | interface :: rest =>
      if negb (is_implementation cls interface)
      then Raise (ValueError (MsgInterface interface))
      else check_interfaces cls rest
  end.

Section methods.
Context (E : Env).

Definition register (cls : PyClass) : Py t unit :=
  self <- get ;;
  lift (check_interfaces cls (interfaces self)) ;;;
  class_name <- lift (_get_class_name E cls) ;;
  modify (set_classes <[class_name := cls]>) ;;;
  modify (set_ids <[cls := class_name]>).

Definition get_extensions : Py t (gmap string PyClass) :=
  self <- get ;;
  ret (classes self).

Definition _set_default (cls : PyClass) : Py t unit :=
  self <- get ;;
  match ids self !! cls with
  | None => register cls
  | Some _ => ret tt
  end ;;;
  class_name <- lift (_get_class_name E cls) ;;
  modify (set_default_id class_name).

Definition _get_default : Py t PyClass :=
  self <- get ;;
  match default_id self with
  | None => raise (AttributeError "default_id")
  | Some d =>
      match classes self !! d with
      | None => raise (KeyError d)
      | Some cls => ret cls
      end
  end.

Definition set_default_by_id (id_ : string) : Py t unit :=
  self <- get ;;
  match classes self !! id_ with
  | None => raise (ValueError (MsgUnregisteredId (name self)))
  | Some cls => _set_default cls
  end.

(** [Category(name, system_default, interfaces)]: the new object, or the
    exception the constructor raised. *)
Definition __init__ (name : string) (system_default : PyClass)
    (interfaces : option (list interface)) : outcome t :=
  let self :=
    mk name system_default
       (match interfaces with None => [] | Some l => l end)
       ∅ ∅ ∅ None in
  match _set_default system_default self with
  | (Return _, self') => Return self'
  | (Raise e, _) => Raise e
  end.

(** What [obj.attr] finds on a [Category] object, for a call
    [obj.attr(cls)]: a method of one class argument, some other
    attribute, or nothing. *)
Inductive attribute :=
| AMethodCls (m : PyClass -> Py t unit)
| AOther.

Definition other_attributes : list string :=
  [ "__init__"; "get_extensions"; "_get_default"; "default";
    "set_default_by_id"; "name"; "system_default"; "interfaces";
    "classes"; "instances"; "ids"; "default_id" ].

Definition getattr (attr : string) : option attribute :=
  if String.eqb attr "register" then Some (AMethodCls register)
  else if String.eqb attr "_set_default" then Some (AMethodCls _set_default)
  else if existsb (String.eqb attr) other_attributes then Some AOther
  else None.

(** The operations a caller can apply to a category once it exists. *)
Inductive op :=
| OpRegister (cls : PyClass)            (* c.register(cls) *)
| OpSetDefault (cls : PyClass)          (* c.default = cls *)
| OpSetDefaultById (id_ : string).      (* c.set_default_by_id(id_) *)

Definition run_op (o : op) : Py t unit :=
  match o with
  | OpRegister cls => register cls
  | OpSetDefault cls => _set_default cls
  | OpSetDefaultById id_ => set_default_by_id id_
  end.

(** The states a category goes through while the interpreter state stays
    [E]: no module of [sys.modules] changes its [__file__] and the working
    directory stays, from the constructor to the last operation. *)
Inductive reachable_in : t -> Prop :=
| reachable_in_init name system_default interfaces self :
    __init__ name system_default interfaces = Return self ->
    reachable_in self
| reachable_in_step self o :
    reachable_in self ->
    reachable_in (snd (run_op o self)).

End methods.

(** The states a category goes through: the one its constructor leaves,
    and the one any operation leaves, whether it returned or raised. Each
    call reads [sys.modules] and the working directory anew, so each has an
    interpreter state of its own. *)
Inductive reachable : t -> Prop :=
| reachable_init E name system_default interfaces self :
    __init__ E name system_default interfaces = Return self ->
    reachable self
| reachable_step E self o :
    reachable self ->
    reachable (snd (run_op E o self)).

End Category.

(** ** The module-level table and functions *)

(** [_categories] *)
Abbreviation Registry := (gmap string Category.t).

(** A method call on the object [self] that [_categories] holds under
    [category_name]: the object is changed in place. *)
Definition call_on {A} (category_name : string) (self : Category.t)
    (m : Py Category.t A) : Py Registry A :=
  fun cats => let (r, self') := m self in (r, <[category_name := self']> cats).

Section functions.
Context (E : Env).

Definition category_register (category : string) (system_default : PyClass)
    (interfaces : list interface) : Py Registry unit :=
  c <- lift (Category.__init__ E category system_default (Some interfaces)) ;;
  modify <[category := c]>.

Definition get_category (category_name : string) : Py Registry Category.t :=
  cats <- get ;;
  match cats !! category_name with
  | None => raise (KeyError category_name)
  | Some c => ret c
  end.

Definition register (category_name : string) (cls : PyClass) : Py Registry unit :=
  c <- get_category category_name ;;
  call_on category_name c (Category.register E cls).

Definition get_categories : Py Registry Registry := get.

Definition get_extensions (category_name : string)
  : Py Registry (gmap string PyClass) :=
  c <- get_category category_name ;;
  call_on category_name c Category.get_extensions.

Definition get_default (category_name : string) : Py Registry PyClass :=
  c <- get_category category_name ;;
  call_on category_name c Category._get_default.

Definition set_default (category_name : string) (cls : PyClass) : Py Registry unit :=
  c <- get_category category_name ;;
  match Category.getattr E "set_default" with
  | None => raise (AttributeError "set_default")
  | Some (Category.AMethodCls m) => call_on category_name c (m cls)
  | Some Category.AOther => raise TypeError
  end.

Definition set_default_by_id (category_name : string) (id_ : string)
  : Py Registry unit :=
  c <- get_category category_name ;;
  call_on category_name c (Category.set_default_by_id E id_).

Definition get_system_default (category_name : string) : Py Registry PyClass :=
  c <- get_category category_name ;;
  ret (Category.system_default c).

End functions.

(** ** Auxiliary definitions for the statements *)


(** [name] is a member of [cls] and its value is callable. *)
Definition callable_member (cls : PyClass) (name : string) : Prop :=
  lookup_attr (cls_attrs cls) name = Some Method.

(** The names an interface requires: the public names of [dir]. *)
Definition required_names (i : interface) : list string :=
  List.filter (fun attribute => negb (startswith attribute "_")) (dir i).

(** How the two dicts of a category hang together, whatever [default_id]. *)
Record dicts_consistent (E : Env) (c : Category.t) : Prop := {
  (* every key of [classes] is the identity of the class stored under it *)
  inv_key : forall k cls,
    Category.classes c !! k = Some cls -> _get_class_name E cls = Return k;
  (* every stored class passed the check of [register] *)
  inv_conform : forall k cls,
    Category.classes c !! k = Some cls ->
    Category.check_interfaces cls (Category.interfaces c) = Return tt;
  (* every stored class is a key of [ids] *)
  inv_val_ids : forall k cls,
    Category.classes c !! k = Some cls -> is_Some (Category.ids c !! cls);
  (* [ids] maps a class to its identity, and that identity is a key of [classes] *)
  inv_ids : forall cls n,
    Category.ids c !! cls = Some n ->
    _get_class_name E cls = Return n /\ is_Some (Category.classes c !! n)
}.

(** [c'] is [c] after some operations: same name, system default and
    interfaces, and no key of [classes] lost. *)
Definition grows (c c' : Category.t) : Prop :=
  Category.name c' = Category.name c /\
  Category.system_default c' = Category.system_default c /\
  Category.interfaces c' = Category.interfaces c /\
  forall k, is_Some (Category.classes c !! k) -> is_Some (Category.classes c' !! k).

(** ** A concrete interpreter state and some classes *)

(** Two modules loaded from absolute, normalised paths, on which
    [os.path.abspath] returns its argument. *)
Definition E0 : Env :=
  mkEnv {[ "dialogs" := Some "/opt/emesene/dialogs.pyc";
           "plugins.fancy" := Some "/opt/emesene/plugins/fancy.py" ]}
        (fun path => path).

(** [class IDialog: def confirm(self, text): raise NotImplementedError()] *)
Definition IDialog : PyClass :=
  mkClass 1 "dialogs" "IDialog" [("__doc__", Data); ("__module__", Data); ("confirm", Method)].

Definition BasicDialog : PyClass :=
  mkClass 2 "dialogs" "BasicDialog" [("__init__", Method); ("confirm", Method)].

Definition FancyDialog : PyClass :=
  mkClass 3 "plugins.fancy" "FancyDialog" [("confirm", Method); ("shine", Method)].

(** A class without [confirm]. *)
Definition BrokenDialog : PyClass :=
  mkClass 4 "plugins.fancy" "BrokenDialog" [("shine", Method)].

(** [class LabelDialog: confirm = "OK"]: the name is there, the value is a
    string. *)
Definition LabelDialog : PyClass :=
  mkClass 5 "plugins.fancy" "LabelDialog" [("confirm", Data)].

(** Two classes of the same module that are both called [Dialog] (nested in
    two different classes, [Gtk.Dialog] and [Text.Dialog]); only the first
    one has [confirm]. *)
Definition GtkDialog : PyClass :=
  mkClass 6 "plugins.fancy" "Dialog" [("confirm", Method)].
Definition TextDialog : PyClass :=
  mkClass 7 "plugins.fancy" "Dialog" [("show", Method)].

(** [_categories] after [category_register("dialog", BasicDialog, IDialog)]. *)
Definition cats1 : Registry :=
  snd (category_register E0 "dialog" BasicDialog [IClass IDialog] ∅).

(** ... and after [register("dialog", FancyDialog)]. *)
Definition cats2 : Registry :=
  snd (register E0 "dialog" FancyDialog cats1).

(** [_categories] after [category_register("dialog", GtkDialog, IDialog)]. *)
Definition cats_gtk : Registry :=
  snd (category_register E0 "dialog" GtkDialog [IClass IDialog] ∅).

(** The category object [cats1] holds under ["dialog"]. *)
Definition cat1 : Category.t :=
  Category.mk "dialog" BasicDialog [IClass IDialog]
    {[ "/opt/emesene/dialogs.py:BasicDialog" := BasicDialog ]}
    ∅
    {[ BasicDialog := "/opt/emesene/dialogs.py:BasicDialog" ]}
    (Some "/opt/emesene/dialogs.py:BasicDialog").

(** The category object [cats_gtk] holds under ["dialog"]. *)
Definition cat_gtk : Category.t :=
  Category.mk "dialog" GtkDialog [IClass IDialog]
    {[ "/opt/emesene/plugins/fancy.py:Dialog" := GtkDialog ]}
    ∅
    {[ GtkDialog := "/opt/emesene/plugins/fancy.py:Dialog" ]}
    (Some "/opt/emesene/plugins/fancy.py:Dialog").

(** ** Sequences of operations and of calls *)

(** The category after a list of operations, each applied to what the one
    before left, whether it returned or raised. *)
Fixpoint run_ops (E : Env) (ops : list Category.op) (c : Category.t) : Category.t :=
  match ops with
  | [] => c
  | o :: rest => run_ops E rest (snd (Category.run_op E o c))
  end.

(** A call of one of the functions of the module. *)
Inductive call :=
| CallCategoryRegister (category : string) (system_default : PyClass)
                       (interfaces : list interface)
| CallRegister (category_name : string) (cls : PyClass)
| CallGetCategory (category_name : string)
| CallGetCategories
| CallGetExtensions (category_name : string)
| CallGetDefault (category_name : string)
| CallSetDefault (category_name : string) (cls : PyClass)
| CallSetDefaultById (category_name : string) (id_ : string)
| CallGetSystemDefault (category_name : string).

(** The call as a statement: the value it returns is dropped. *)
Definition exec (E : Env) (k : call) : Py Registry unit :=
  match k with
  | CallCategoryRegister category system_default interfaces =>
      category_register E category system_default interfaces
  | CallRegister category_name cls => register E category_name cls
  | CallGetCategory category_name => get_category category_name ;;; ret tt
  | CallGetCategories => get_categories ;;; ret tt
  | CallGetExtensions category_name => get_extensions category_name ;;; ret tt
  | CallGetDefault category_name => get_default category_name ;;; ret tt
  | CallSetDefault category_name cls => set_default E category_name cls
  | CallSetDefaultById category_name id_ => set_default_by_id E category_name id_
  | CallGetSystemDefault category_name => get_system_default category_name ;;; ret tt
  end.

(** [_categories] after a list of calls, each with the interpreter state
    it runs in, a call that raised being caught. *)
Fixpoint run_calls (calls : list (Env * call)) (cats : Registry) : Registry :=
  match calls with
  | [] => cats
  | (E, k) :: rest => run_calls rest (snd (exec E k cats))
  end.

(** The module file of [legacy] was loaded from byte-code, the one of
    [legacy_src] from source. *)
Definition E1 : Env :=
  mkEnv {[ "legacy" := Some "/opt/emesene/legacy.pyc";
           "legacy_src" := Some "/opt/emesene/legacy.py" ]}
        (fun path => path).
Definition LegacyCompiled : PyClass := mkClass 8 "legacy" "Legacy" [].
Definition LegacySource : PyClass := mkClass 9 "legacy_src" "Legacy" [].

(** A third class called [Dialog] in the module of [GtkDialog], with
    [confirm]. *)
Definition QtDialog : PyClass :=
  mkClass 10 "plugins.fancy" "Dialog" [("confirm", Method); ("exec_", Method)].

(** What the two dicts of a category keep whatever the interpreter state of
    each call was. *)
Record dicts_conform (c : Category.t) : Prop := {
  (* every stored class passed the check of [register] *)
  cinv_conform : forall k cls,
    Category.classes c !! k = Some cls ->
    Category.check_interfaces cls (Category.interfaces c) = Return tt;
  (* every stored class is a key of [ids] *)
  cinv_val_ids : forall k cls,
    Category.classes c !! k = Some cls -> is_Some (Category.ids c !! cls);
  (* the identity [ids] gives a class is a key of [classes] *)
  cinv_ids : forall cls n,
    Category.ids c !! cls = Some n -> is_Some (Category.classes c !! n);
  (* the system default passes the check of [register] *)
  cinv_system : Category.check_interfaces (Category.system_default c)
                  (Category.interfaces c) = Return tt
}.

(** ** One module seen from two working directories *)





(** The category of [cats1] after [register(FancyDialog)]. *)
Definition cat2 : Category.t :=
  snd (Category.register E0 FancyDialog cat1).

(** * Properties *)

(** ** Strings *)

Lemma append_nil (s : string) : ("" ++ s)%string = s.
Proof. reflexivity. Qed.

Lemma append_cons (a : ascii) (p s : string) :
  (String a p ++ s)%string = String a (p ++ s)%string.
Proof. reflexivity. Qed.



(** ** [is_implementation] *)

Lemma all_present_true cls methods :
  all_present cls methods = true <->
  forall m, In m methods -> hasattr cls m = true.
Proof.
  induction methods as [|m methods IH]; simpl.
  - split; [intros _ m [] | reflexivity].
  - destruct (hasattr cls m) eqn:Hm; simpl.
    + rewrite IH. split.
      * intros H m' [<- | Hin]; auto.
      * intros H m' Hin. apply H. auto.
    + split; [discriminate |]. intros H. rewrite <- Hm. apply H. auto.
Qed.

(** ** [Category]: the methods, one equation each *)

Lemma check_interfaces_Return cls ifs :
  Category.check_interfaces cls ifs = Return tt <->
  forall i, In i ifs -> is_implementation cls i = true.
Proof.
  induction ifs as [|i ifs IH]; simpl.
  - split; [intros _ i [] | reflexivity].
  - destruct (is_implementation cls i) eqn:Hi; simpl.
    + rewrite IH. split.
      * intros H j [<- | Hin]; auto.
      * intros H j Hin. apply H. auto.
    + split; [discriminate |]. intros H.
      specialize (H i (or_introl eq_refl)). congruence.
Qed.

Lemma check_interfaces_Raise cls ifs :
  (exists i, In i ifs /\ is_implementation cls i = false) ->
  exists i, In i ifs /\ is_implementation cls i = false /\
            Category.check_interfaces cls ifs = Raise (ValueError (MsgInterface i)).
Proof.
  induction ifs as [|i ifs IH]; simpl.
  - intros (i & [] & _).
  - intros (j & Hin & Hj).
    destruct (is_implementation cls i) eqn:Hi; simpl.
    + destruct Hin as [-> | Hin]; [congruence |].
      destruct IH as (i' & Hin' & Hi' & Hc); [by exists j |].
      exists i'. auto.
    + exists i. auto.
Qed.

Section category_facts.
Context (E : Env).

Lemma register_unfold cls self :
  Category.register E cls self =
  match Category.check_interfaces cls (Category.interfaces self) with
  | Raise e => (Raise e, self)
  | Return _ =>
      match _get_class_name E cls with
      | Raise e => (Raise e, self)
      | Return n =>
          (Return tt, Category.set_ids <[cls := n]> (Category.set_classes <[n := cls]> self))
      end
  end.
Proof.
  unfold Category.register, bind, get, lift, modify. simpl.
  destruct (Category.check_interfaces cls (Category.interfaces self)); [| reflexivity].
  destruct (_get_class_name E cls); reflexivity.
Qed.

Lemma _set_default_unfold cls self :
  Category._set_default E cls self =
  match Category.ids self !! cls with
  | None =>
      match Category.register E cls self with
      | (Raise e, self') => (Raise e, self')
      | (Return _, self') =>
          match _get_class_name E cls with
          | Raise e => (Raise e, self')
          | Return n => (Return tt, Category.set_default_id n self')
          end
      end
  | Some _ =>
      match _get_class_name E cls with
      | Raise e => (Raise e, self)
      | Return n => (Return tt, Category.set_default_id n self)
      end
  end.
Proof.
  unfold Category._set_default, bind, get, lift, modify, ret. simpl.
  destruct (Category.ids self !! cls).
  - destruct (_get_class_name E cls); reflexivity.
  - destruct (Category.register E cls self) as [[] self']; [| reflexivity].
    destruct (_get_class_name E cls); reflexivity.
Qed.

Lemma set_default_by_id_unfold id_ self :
  Category.set_default_by_id E id_ self =
  match Category.classes self !! id_ with
  | None => (Raise (ValueError (MsgUnregisteredId (Category.name self))), self)
  | Some cls => Category._set_default E cls self
  end.
Proof.
  unfold Category.set_default_by_id, bind, get. simpl.
  destruct (Category.classes self !! id_); reflexivity.
Qed.

Lemma _get_default_unfold self :
  Category._get_default self =
  match Category.default_id self with
  | None => (Raise (AttributeError "default_id"), self)
  | Some d =>
      match Category.classes self !! d with
      | None => (Raise (KeyError d), self)
      | Some cls => (Return cls, self)
      end
  end.
Proof.
  unfold Category._get_default, bind, get. simpl.
  destruct (Category.default_id self) as [d|]; [| reflexivity].
  destruct (Category.classes self !! d); reflexivity.
Qed.

End category_facts.

(** ** [Category]: what the operations keep *)

Section category_invariants.
Context (E : Env).

Lemma grows_refl c : grows c c.
Proof. repeat split; auto. Qed.

Lemma grows_trans c1 c2 c3 : grows c1 c2 -> grows c2 c3 -> grows c1 c3.
Proof.
  intros (Hn & Hs & Hi & Hk) (Hn' & Hs' & Hi' & Hk').
  repeat split; try congruence. auto.
Qed.

Lemma register_grows cls c :
  grows c (snd (Category.register E cls c)) /\
  Category.default_id (snd (Category.register E cls c)) = Category.default_id c.
Proof.
  rewrite register_unfold.
  destruct (Category.check_interfaces cls (Category.interfaces c));
    [| split; [apply grows_refl | reflexivity]].
  destruct (_get_class_name E cls) as [n|];
    [| split; [apply grows_refl | reflexivity]].
  split; [| reflexivity]. repeat split; simpl.
  intros k Hk. destruct (decide (n = k)) as [-> | Hne].
  - rewrite lookup_insert_eq. eauto.
  - by rewrite lookup_insert_ne.
Qed.

Lemma register_consistent cls c :
  dicts_consistent E c -> dicts_consistent E (snd (Category.register E cls c)).
Proof.
  intros [Hkey Hconf Hval Hids]. rewrite register_unfold.
  destruct (Category.check_interfaces cls (Category.interfaces c)) as [[]|] eqn:Hc;
    [| by constructor].
  destruct (_get_class_name E cls) as [n|] eqn:Hn; [| by constructor].
  constructor; simpl.
  - intros k cls'. destruct (decide (n = k)) as [-> | Hne].
    + rewrite lookup_insert_eq. by intros [= <-].
    + rewrite lookup_insert_ne by done. apply Hkey.
  - intros k cls'. destruct (decide (n = k)) as [-> | Hne].
    + rewrite lookup_insert_eq. by intros [= <-].
    + rewrite lookup_insert_ne by done. apply Hconf.
  - intros k cls' Hk. destruct (decide (cls = cls')) as [-> | Hne'].
    + rewrite lookup_insert_eq. eauto.
    + rewrite lookup_insert_ne by done.
      destruct (decide (n = k)) as [-> | Hne].
      * rewrite lookup_insert_eq in Hk. congruence.
      * rewrite lookup_insert_ne in Hk by done. eapply Hval, Hk.
  - intros cls' n'. destruct (decide (cls = cls')) as [-> | Hne'].
    + rewrite lookup_insert_eq. intros [= <-]. split; [done |].
      rewrite lookup_insert_eq. eauto.
    + rewrite lookup_insert_ne by done. intros Hcls'.
      destruct (Hids _ _ Hcls') as [Hname Hsome]. split; [done |].
      destruct (decide (n = n')) as [-> | Hne].
      * rewrite lookup_insert_eq. eauto.
      * by rewrite lookup_insert_ne.
Qed.

Lemma set_default_id_consistent d c :
  dicts_consistent E c -> dicts_consistent E (Category.set_default_id d c).
Proof. intros [Hkey Hconf Hval Hids]. by constructor. Qed.

Lemma set_default_id_grows d c : grows c (Category.set_default_id d c).
Proof. repeat split; auto. Qed.

Lemma _set_default_grows cls c :
  grows c (snd (Category._set_default E cls c)).
Proof.
  rewrite _set_default_unfold.
  destruct (Category.ids c !! cls).
  - destruct (_get_class_name E cls); simpl;
      [apply set_default_id_grows | apply grows_refl].
  - pose proof (register_grows cls c) as [Hg _].
    destruct (Category.register E cls c) as [[] c']; simpl in *; [| done].
    destruct (_get_class_name E cls); simpl; [| done].
    eapply grows_trans; [exact Hg | apply set_default_id_grows].
Qed.

Lemma _set_default_consistent cls c :
  dicts_consistent E c -> dicts_consistent E (snd (Category._set_default E cls c)).
Proof.
  intros Hc. rewrite _set_default_unfold.
  destruct (Category.ids c !! cls).
  - destruct (_get_class_name E cls); simpl;
      [by apply set_default_id_consistent | done].
  - pose proof (register_consistent cls c Hc) as Hc'.
    destruct (Category.register E cls c) as [[] c']; simpl in *; [| done].
    destruct (_get_class_name E cls); simpl;
      [by apply set_default_id_consistent | done].
Qed.

(** After the setter of [default]: either it raised and [default_id] is
    what it was, or [default_id] is the identity of [cls], a key of
    [classes]. *)
Lemma _set_default_default_id cls c :
  dicts_consistent E c ->
  match Category._set_default E cls c with
  | (Return _, c') =>
      exists n, _get_class_name E cls = Return n /\
                Category.default_id c' = Some n /\ is_Some (Category.classes c' !! n)
  | (Raise _, c') => Category.default_id c' = Category.default_id c
  end.
Proof.
  intros Hc. rewrite _set_default_unfold.
  destruct (Category.ids c !! cls) as [n0|] eqn:Hids.
  - destruct (inv_ids E c Hc _ _ Hids) as [Hname Hsome].
    rewrite Hname. exists n0. auto.
  - rewrite register_unfold.
    destruct (Category.check_interfaces cls (Category.interfaces c)); [| done].
    destruct (_get_class_name E cls) as [n|]; [| done].
    exists n. simpl. rewrite lookup_insert_eq. eauto.
Qed.

Lemma run_op_grows o c : grows c (snd (Category.run_op E o c)).
Proof.
  destruct o as [cls | cls | id_]; simpl.
  - apply register_grows.
  - apply _set_default_grows.
  - rewrite set_default_by_id_unfold.
    destruct (Category.classes c !! id_); [apply _set_default_grows | apply grows_refl].
Qed.

Lemma run_op_consistent o c :
  dicts_consistent E c -> dicts_consistent E (snd (Category.run_op E o c)).
Proof.
  intros Hc. destruct o as [cls | cls | id_]; simpl.
  - by apply register_consistent.
  - by apply _set_default_consistent.
  - rewrite set_default_by_id_unfold.
    destruct (Category.classes c !! id_); [by apply _set_default_consistent | done].
Qed.

(** [default_id] stays a key of [classes] under every operation. *)
Lemma run_op_default_id o c :
  dicts_consistent E c ->
  (exists d, Category.default_id c = Some d /\ is_Some (Category.classes c !! d)) ->
  exists d, Category.default_id (snd (Category.run_op E o c)) = Some d /\
            is_Some (Category.classes (snd (Category.run_op E o c)) !! d).
Proof.
  intros Hc (d & Hd & Hsome).
  assert (Hset : forall cls,
    exists d', Category.default_id (snd (Category._set_default E cls c)) = Some d' /\
               is_Some (Category.classes (snd (Category._set_default E cls c)) !! d')).
  { intros cls. pose proof (_set_default_default_id cls c Hc) as H.
    pose proof (_set_default_grows cls c) as (_ & _ & _ & Hk).
    destruct (Category._set_default E cls c) as [[] c']; simpl in *.
    - destruct H as (n & _ & Hn & Hs). eauto.
    - exists d. split; [congruence | auto]. }
  destruct o as [cls | cls | id_]; simpl.
  - pose proof (register_grows cls c) as [(_ & _ & _ & Hk) Hdef].
    exists d. split; [congruence | auto].
  - apply Hset.
  - rewrite set_default_by_id_unfold.
    destruct (Category.classes c !! id_); [apply Hset | simpl; eauto].
Qed.

(** What the constructor leaves when it returns. *)
Lemma __init___Return n sd ifs c :
  Category.__init__ E n sd ifs = Return c ->
  exists k,
    _get_class_name E sd = Return k /\
    Category.check_interfaces sd (match ifs with None => [] | Some l => l end) = Return tt /\
    c = Category.mk n sd (match ifs with None => [] | Some l => l end)
           {[ k := sd ]} ∅ {[ sd := k ]} (Some k).
Proof.
  unfold Category.__init__. rewrite _set_default_unfold. simpl.
  rewrite lookup_empty, register_unfold. simpl.
  destruct (Category.check_interfaces sd _) as [[]|]; [| discriminate].
  destruct (_get_class_name E sd) as [k|]; [| discriminate].
  intros [= <-]. exists k. auto.
Qed.

Lemma reachable_consistent c :
  Category.reachable_in E c ->
  dicts_consistent E c /\
  (exists d, Category.default_id c = Some d /\ is_Some (Category.classes c !! d)) /\
  (exists k, _get_class_name E (Category.system_default c) = Return k /\
             is_Some (Category.classes c !! k)).
Proof.
  induction 1 as [n sd ifs c Hinit | c o Hr (Hc & Hd & (k & Hk & Hsome))].
  - apply __init___Return in Hinit as (k & Hk & Hchk & ->). simpl.
    split; [| split].
    + constructor; simpl.
      * intros k' cls Hl. apply lookup_singleton_Some in Hl as [<- <-]. done.
      * intros k' cls Hl. apply lookup_singleton_Some in Hl as [<- <-]. done.
      * intros k' cls Hl. apply lookup_singleton_Some in Hl as [<- <-].
        rewrite lookup_singleton_eq. eauto.
      * intros cls n' Hl. apply lookup_singleton_Some in Hl as [<- <-].
        rewrite lookup_singleton_eq. eauto.
    + exists k. rewrite lookup_singleton_eq. eauto.
    + exists k. rewrite lookup_singleton_eq. eauto.
  - split; [| split].
    + by apply run_op_consistent.
    + by apply run_op_default_id.
    + destruct (run_op_grows o c) as (_ & Hsd & _ & Hkeys).
      exists k. rewrite Hsd. auto.
Qed.

End category_invariants.

(** ** [Category]: what holds whatever the interpreter state of each call *)

Lemma register_conform (E : Env) (cls : PyClass) (c : Category.t) :
  dicts_conform c -> dicts_conform (snd (Category.register E cls c)).
Proof.
  intros [Hconf Hval Hids Hsys]. rewrite register_unfold.
  destruct (Category.check_interfaces cls (Category.interfaces c)) as [[]|] eqn:Hc;
    [| by constructor].
  destruct (_get_class_name E cls) as [n|] eqn:Hn; [| by constructor].
  constructor; simpl.
  - intros k cls'. destruct (decide (n = k)) as [-> | Hne].
    + rewrite lookup_insert_eq. by intros [= <-].
    + rewrite lookup_insert_ne by done. apply Hconf.
  - intros k cls' Hk. destruct (decide (cls = cls')) as [-> | Hne'].
    + rewrite lookup_insert_eq. eauto.
    + rewrite lookup_insert_ne by done.
      destruct (decide (n = k)) as [-> | Hne].
      * rewrite lookup_insert_eq in Hk. congruence.
      * rewrite lookup_insert_ne in Hk by done. eapply Hval, Hk.
  - intros cls' n'. destruct (decide (cls = cls')) as [-> | Hne'].
    + rewrite lookup_insert_eq. intros [= <-]. rewrite lookup_insert_eq. eauto.
    + rewrite lookup_insert_ne by done. intros Hcls'.
      destruct (decide (n = n')) as [-> | Hne].
      * rewrite lookup_insert_eq. eauto.
      * rewrite lookup_insert_ne by done. eapply Hids, Hcls'.
  - exact Hsys.
Qed.

Lemma set_default_id_conform (d : string) (c : Category.t) :
  dicts_conform c -> dicts_conform (Category.set_default_id d c).
Proof. intros [Hconf Hval Hids Hsys]. by constructor. Qed.

Lemma run_op_conform (E : Env) (o : Category.op) (c : Category.t) :
  dicts_conform c -> dicts_conform (snd (Category.run_op E o c)).
Proof.
  intros Hc.
  assert (Hset : forall cls, dicts_conform (snd (Category._set_default E cls c))).
  { intros cls. rewrite _set_default_unfold.
    destruct (Category.ids c !! cls).
    - destruct (_get_class_name E cls); simpl;
        [by apply set_default_id_conform | done].
    - pose proof (register_conform E cls c Hc) as Hc'.
      destruct (Category.register E cls c) as [[] c']; simpl in *; [| done].
      destruct (_get_class_name E cls); simpl;
        [by apply set_default_id_conform | done]. }
  destruct o as [cls | cls | id_]; simpl.
  - by apply register_conform.
  - apply Hset.
  - rewrite set_default_by_id_unfold.
    destruct (Category.classes c !! id_); [apply Hset | done].
Qed.

Lemma reachable_conform (c : Category.t) :
  Category.reachable c -> dicts_conform c.
Proof.
  induction 1 as [E n sd ifs c Hinit | E c o Hr IH].
  - apply __init___Return in Hinit as (k & Hk & Hchk & ->).
    constructor; simpl.
    + intros k' cls Hl. apply lookup_singleton_Some in Hl as [<- <-]. done.
    + intros k' cls Hl. apply lookup_singleton_Some in Hl as [<- <-].
      rewrite lookup_singleton_eq. eauto.
    + intros cls n' Hl. apply lookup_singleton_Some in Hl as [<- <-].
      rewrite lookup_singleton_eq. eauto.
    + exact Hchk.
  - by apply run_op_conform.
Qed.

(** A state reached under one interpreter state is a state reached. *)
Lemma reachable_in_reachable (E : Env) (c : Category.t) :
  Category.reachable_in E c -> Category.reachable c.
Proof.
  induction 1 as [n sd ifs c Hinit | c o Hr IH].
  - eapply Category.reachable_init, Hinit.
  - by apply Category.reachable_step.
Qed.

(** ** Registration of a class that misses a required name *)

Section registry_facts.
Context (E : Env).

Lemma get_category_unfold category_name (cats : Registry) :
  get_category category_name cats =
  match cats !! category_name with
  | None => (Raise (KeyError category_name), cats)
  | Some c => (Return c, cats)
  end.
Proof.
  unfold get_category, bind, get. simpl.
  destruct (cats !! category_name); reflexivity.
Qed.

(** A method call on a stored category that leaves the object as it was
    leaves [_categories] as it was. *)
Lemma call_unchanged {A} category_name c (m : Py Category.t A) r (cats : Registry) :
  cats !! category_name = Some c ->
  m c = (r, c) ->
  (self <- get_category category_name ;; call_on category_name self m) cats
  = (r, cats).
Proof.
  intros Hc Hm. unfold bind. rewrite get_category_unfold, Hc.
  unfold call_on. rewrite Hm. by rewrite insert_id.
Qed.

Lemma category_register_unfold category sd ifs (cats : Registry) :
  category_register E category sd ifs cats =
  match Category.__init__ E category sd (Some ifs) with
  | Return c => (Return tt, <[category := c]> cats)
  | Raise e => (Raise e, cats)
  end.
Proof.
  unfold category_register, bind, lift, modify.
  destruct (Category.__init__ E category sd (Some ifs)); reflexivity.
Qed.

End registry_facts.

(** C1, as the code has it: registering a class that misses a name required
    by one of the Category.interfaces of the category raises [ValueError] for the
    first interface it fails, in [Category.register] and in the module-level
    [register] alike, and leaves the category and [_categories] exactly as
    they were; and in a category that was built by its constructor and the
    operations, that class is stored under no key of [classes]; its identity
    is a key afterwards exactly when it was one before. *)
Theorem register_mismatch (E : Env) (cats : Registry) (category_name : string)
    (c : Category.t) (cls : PyClass) :
  cats !! category_name = Some c ->
  (exists i, In i (Category.interfaces c) /\ is_implementation cls i = false) ->
  exists i, In i (Category.interfaces c) /\ is_implementation cls i = false /\
    Category.register E cls c = (Raise (ValueError (MsgInterface i)), c) /\
    register E category_name cls cats = (Raise (ValueError (MsgInterface i)), cats) /\
    get_extensions category_name cats = (Return (Category.classes c), cats) /\
    (Category.reachable c -> forall k, Category.classes c !! k <> Some cls).
Proof.
  intros Hc Hlack.
  destruct (check_interfaces_Raise cls (Category.interfaces c) Hlack) as (i & Hin & Hi & Hchk).
  assert (Hreg : Category.register E cls c = (Raise (ValueError (MsgInterface i)), c)).
  { rewrite register_unfold, Hchk. reflexivity. }
  exists i. repeat split; auto.
  - by apply call_unchanged with (c := c).
  - by apply call_unchanged with (c := c).
  - intros Hr k Hk. apply reachable_conform in Hr.
    pose proof (cinv_conform c Hr _ _ Hk) as Hok. congruence.
Qed.

Lemma register_mismatch_witness :
  exists i, In i (Category.interfaces cat1) /\ is_implementation BrokenDialog i = false /\
    Category.register E0 BrokenDialog cat1 = (Raise (ValueError (MsgInterface i)), cat1) /\
    register E0 "dialog" BrokenDialog cats1 = (Raise (ValueError (MsgInterface i)), cats1) /\
    get_extensions "dialog" cats1 = (Return (Category.classes cat1), cats1) /\
    (Category.reachable cat1 -> forall k, Category.classes cat1 !! k <> Some BrokenDialog).
Proof.
  apply (register_mismatch E0 cats1 "dialog" cat1 BrokenDialog).
  - vm_compute. reflexivity.
  - exists (IClass IDialog). split; [left; reflexivity | reflexivity].
Defined.

(** C1, as it is worded, fails: [TextDialog] has no [confirm], so
    registering it into the category of [cats_gtk] raises [ValueError]; but
    its identity is the one of [GtkDialog], the system default, and so it is
    a key of [get_extensions] afterwards. *)
Lemma register_mismatch_identity_listed :
  cats_gtk !! "dialog" = Some cat_gtk /\
  In (IClass IDialog) (Category.interfaces cat_gtk) /\
  is_implementation TextDialog (IClass IDialog) = false /\
  ~ (exists m cats',
        register E0 "dialog" TextDialog cats_gtk = (Raise (ValueError m), cats') /\
        forall k exts,
          _get_class_name E0 TextDialog = Return k ->
          fst (get_extensions "dialog" cats') = Return exts ->
          exts !! k = None).
Proof.
  split; [vm_compute; reflexivity |].
  split; [left; reflexivity |].
  split; [reflexivity |].
  intros (m & cats' & Hreg & Habsent).
  assert (Hcats : cats' = cats_gtk).
  { assert (H : snd (register E0 "dialog" TextDialog cats_gtk) = cats_gtk)
      by (vm_compute; reflexivity).
    rewrite Hreg in H. exact H. }
  subst cats'.
  specialize (Habsent "/opt/emesene/plugins/fancy.py:Dialog" (Category.classes cat_gtk)).
  assert (Hl : Category.classes cat_gtk !! "/opt/emesene/plugins/fancy.py:Dialog" = Some GtkDialog)
    by (vm_compute; reflexivity).
  rewrite Habsent in Hl; [discriminate | reflexivity | vm_compute; reflexivity].
Qed.

(** ** Choosing the default by identity *)




(** ** The interface check *)

(** C3, as the code has it: [is_implementation] answers [True] exactly when
    every public name of [dir(interface_cls)] (one that does not start with
    an underscore) is an attribute of the class, whatever its value, callable
    or not; every class implements [None], and every class implements an
    interface that has no public name. *)
Theorem is_implementation_spec (cls : PyClass) (i : interface) :
  (is_implementation cls i = true <->
   forall n, In n (required_names i) -> hasattr cls n = true) /\
  is_implementation cls INone = true /\
  (required_names i = [] -> is_implementation cls i = true).
Proof.
  split; [| split].
  - unfold is_implementation, required_names. apply all_present_true.
  - reflexivity.
  - unfold is_implementation, required_names. by intros ->.
Qed.

(** C3, as it is worded, fails: [LabelDialog] passes the check for
    [IDialog] although its [confirm] is a string, not a callable. *)
Lemma is_implementation_not_callable :
  ~ (is_implementation LabelDialog (IClass IDialog) = true <->
     forall n, In n (required_names (IClass IDialog)) ->
               callable_member LabelDialog n).
Proof.
  intros [Hcall _].
  specialize (Hcall eq_refl "confirm" (or_introl eq_refl)).
  discriminate Hcall.
Qed.

(** ** The module-level [set_default] *)

(** [Category] has no attribute [set_default]: the class binds
    [_set_default] and the property [default]. *)
Lemma Category_has_no_set_default (E : Env) :
  Category.getattr E "set_default" = None.
Proof. reflexivity. Qed.

(** The module-level [set_default] returns for no argument: it raises
    [KeyError] for a category that does not exist and [AttributeError]
    for one that does, and [_categories] is as before. *)
Lemma set_default_raises (E : Env) (category_name : string) (cls : PyClass)
    (cats : Registry) :
  set_default E category_name cls cats =
  match cats !! category_name with
  | None => (Raise (KeyError category_name), cats)
  | Some _ => (Raise (AttributeError "set_default"), cats)
  end.
Proof.
  unfold set_default, bind. rewrite get_category_unfold.
  destruct (cats !! category_name); reflexivity.
Qed.

(** What the setter of the property [default] does with a class that is not
    yet registered and passes the check: it registers the class and makes it
    the default, so that the getter returns it. This is what the docstring
    of the module-level [set_default] promises. *)
Lemma _set_default_registers (E : Env) (c : Category.t) (cls : PyClass) (k : string) :
  Category.ids c !! cls = None ->
  (forall i, In i (Category.interfaces c) -> is_implementation cls i = true) ->
  _get_class_name E cls = Return k ->
  exists c',
    Category._set_default E cls c = (Return tt, c') /\
    Category.classes c' = <[k := cls]> (Category.classes c) /\
    Category._get_default c' = (Return cls, c').
Proof.
  intros Hids Hconf Hk. rewrite _set_default_unfold, Hids, register_unfold.
  apply check_interfaces_Return in Hconf. rewrite Hconf, Hk.
  eexists. split; [reflexivity |]. split; [reflexivity |].
  rewrite _get_default_unfold. simpl. by rewrite lookup_insert_eq.
Qed.

(** C4 at one input: the category ["dialog"] exists, [FancyDialog] passes
    its check and is not registered; the module-level [set_default] raises
    [AttributeError], registers nothing and leaves [BasicDialog] the
    default, where the setter of the property [default] on the same
    category would have returned and made [FancyDialog] the default. *)
Theorem set_default_attribute_error :
  cats1 !! "dialog" = Some cat1 /\
  (forall i, In i (Category.interfaces cat1) -> is_implementation FancyDialog i = true) /\
  set_default E0 "dialog" FancyDialog cats1
    = (Raise (AttributeError "set_default"), cats1) /\
  get_default "dialog" cats1 = (Return BasicDialog, cats1) /\
  (exists c', Category._set_default E0 FancyDialog cat1 = (Return tt, c') /\
              Category._get_default c' = (Return FancyDialog, c')).
Proof.
  assert (Hc : cats1 !! "dialog" = Some cat1) by (vm_compute; reflexivity).
  split; [exact Hc |]. split; [| split; [| split]].
  - intros i [<- | []]. reflexivity.
  - rewrite set_default_raises, Hc. reflexivity.
  - apply call_unchanged with (c := cat1); [exact Hc | reflexivity].
  - destruct (_set_default_registers E0 cat1 FancyDialog
                "/opt/emesene/plugins/fancy.py:FancyDialog")
      as (c' & Hset & _ & Hget).
    + vm_compute. reflexivity.
    + intros i [<- | []]. reflexivity.
    + reflexivity.
    + exists c'. auto.
Qed.

(** ** Creating a category *)

(** C8: when [category_register] returns, the category it stored has the
    identity of the system default as [default_id], and [get_default] of
    that name returns the system default itself. *)
Theorem get_default_after_category_register (E : Env) (category : string)
    (system_default : PyClass) (interfaces : list interface)
    (cats cats' : Registry) :
  category_register E category system_default interfaces cats = (Return tt, cats') ->
  exists c k,
    cats' !! category = Some c /\
    _get_class_name E system_default = Return k /\
    Category.default_id c = Some k /\
    get_default category cats' = (Return system_default, cats').
Proof.
  rewrite category_register_unfold.
  destruct (Category.__init__ E category system_default (Some interfaces))
    as [c|] eqn:Hinit; [| discriminate].
  intros [= <-].
  apply __init___Return in Hinit as (k & Hk & _ & ->).
  eexists _, k. split; [apply lookup_insert_eq |].
  split; [exact Hk |]. split; [reflexivity |].
  eapply call_unchanged; [apply lookup_insert_eq |].
  rewrite _get_default_unfold. simpl. by rewrite lookup_singleton_eq.
Qed.

Lemma get_default_after_category_register_witness :
  exists c k,
    cats1 !! "dialog" = Some c /\
    _get_class_name E0 BasicDialog = Return k /\
    Category.default_id c = Some k /\
    get_default "dialog" cats1 = (Return BasicDialog, cats1).
Proof.
  apply (get_default_after_category_register E0 "dialog" BasicDialog
           [IClass IDialog] ∅ cats1).
  vm_compute. reflexivity.
Defined.

(** C10: [category_register] with a system default that misses a name
    required by one of the interfaces raises the [ValueError] of
    [Category.register] while the [Category] object is being built, and
    [_categories] is left as it was: nothing is stored under the name and
    what was stored under it stays. *)
Theorem category_register_mismatch (E : Env) (category : string)
    (system_default : PyClass) (interfaces : list interface) (cats : Registry) :
  (exists i, In i interfaces /\ is_implementation system_default i = false) ->
  exists i, In i interfaces /\ is_implementation system_default i = false /\
    Category.__init__ E category system_default (Some interfaces)
      = Raise (ValueError (MsgInterface i)) /\
    category_register E category system_default interfaces cats
      = (Raise (ValueError (MsgInterface i)), cats).
Proof.
  intros Hlack.
  destruct (check_interfaces_Raise system_default interfaces Hlack)
    as (i & Hin & Hi & Hchk).
  assert (Hinit : Category.__init__ E category system_default (Some interfaces)
                  = Raise (ValueError (MsgInterface i))).
  { unfold Category.__init__. rewrite _set_default_unfold. simpl.
    rewrite lookup_empty, register_unfold. simpl. by rewrite Hchk. }
  exists i. repeat split; auto.
  rewrite category_register_unfold, Hinit. reflexivity.
Qed.

Lemma category_register_mismatch_witness :
  exists i, In i [IClass IDialog] /\ is_implementation BrokenDialog i = false /\
    Category.__init__ E0 "dialog" BrokenDialog (Some [IClass IDialog])
      = Raise (ValueError (MsgInterface i)) /\
    category_register E0 "dialog" BrokenDialog [IClass IDialog] cats2
      = (Raise (ValueError (MsgInterface i)), cats2).
Proof.
  apply (category_register_mismatch E0 "dialog" BrokenDialog [IClass IDialog] cats2).
  exists (IClass IDialog). split; [left; reflexivity | reflexivity].
Defined.

(** C5, as the code has it: [category_register] builds a new [Category]
    and stores it under the name, whether the name was there or not. When
    it returns, [get_extensions] of that name holds one entry, the system
    default under its identity, so an identity that was listed before is
    listed afterwards only if it is that one; when it raises,
    [_categories] is as before and nothing is lost. *)
Theorem category_register_replaces (E : Env) (category : string)
    (system_default : PyClass) (interfaces : list interface) (cats : Registry) :
  (exists k,
     _get_class_name E system_default = Return k /\
     fst (category_register E category system_default interfaces cats) = Return tt /\
     get_extensions category
       (snd (category_register E category system_default interfaces cats))
     = (Return {[ k := system_default ]},
        snd (category_register E category system_default interfaces cats))) \/
  (exists e,
     category_register E category system_default interfaces cats = (Raise e, cats)).
Proof.
  rewrite category_register_unfold.
  destruct (Category.__init__ E category system_default (Some interfaces))
    as [c|e] eqn:Hinit.
  - left. apply __init___Return in Hinit as (k & Hk & _ & ->).
    exists k. split; [exact Hk |]. split; [reflexivity |]. simpl.
    eapply call_unchanged; [apply lookup_insert_eq | reflexivity].
  - right. by exists e.
Qed.

(** C5, as it is worded, fails: in [cats2] the identity of [FancyDialog] is
    listed under ["dialog"]; after a second
    [category_register("dialog", BasicDialog, IDialog)] it is not. *)
Lemma category_register_again_discards :
  (exists exts,
     fst (get_extensions "dialog" cats2) = Return exts /\
     is_Some (exts !! "/opt/emesene/plugins/fancy.py:FancyDialog")) /\
  ~ (forall k exts exts',
       fst (get_extensions "dialog" cats2) = Return exts ->
       is_Some (exts !! k) ->
       fst (get_extensions "dialog"
              (snd (category_register E0 "dialog" BasicDialog [IClass IDialog] cats2)))
         = Return exts' ->
       is_Some (exts' !! k)).
Proof.
  assert (Hbefore : exists exts,
            fst (get_extensions "dialog" cats2) = Return exts /\
            exts !! "/opt/emesene/plugins/fancy.py:FancyDialog" = Some FancyDialog).
  { eexists. split; vm_compute; reflexivity. }
  destruct Hbefore as (exts & Hexts & Hl).
  split; [exists exts; rewrite Hl; eauto |].
  intros H.
  specialize (H "/opt/emesene/plugins/fancy.py:FancyDialog" exts
                (Category.classes cat1) Hexts).
  destruct H as [cls Hcls].
  - rewrite Hl. eauto.
  - vm_compute. reflexivity.
  - vm_compute in Hcls. discriminate Hcls.
Qed.

(** ** The default never dangles *)




(** ** Registering twice *)



(** ** The identity of a class *)





(** * Further properties of the module *)

(** ** An operation that raises changes nothing *)

Lemma _set_default_raise_unchanged (E : Env) (cls : PyClass) (c : Category.t) (e : exn) :
  fst (Category._set_default E cls c) = Raise e ->
  snd (Category._set_default E cls c) = c.
Proof.
  rewrite _set_default_unfold.
  destruct (Category.ids c !! cls).
  - destruct (_get_class_name E cls); [discriminate | reflexivity].
  - rewrite register_unfold.
    destruct (Category.check_interfaces cls (Category.interfaces c)); [| reflexivity].
    destruct (_get_class_name E cls); [discriminate | reflexivity].
Qed.

Lemma op_raise_unchanged (E : Env) (o : Category.op) (c : Category.t) (e : exn) :
  fst (Category.run_op E o c) = Raise e ->
  snd (Category.run_op E o c) = c.
Proof.
  destruct o as [cls | cls | id_]; simpl.
  - rewrite register_unfold.
    destruct (Category.check_interfaces cls (Category.interfaces c)); [| reflexivity].
    destruct (_get_class_name E cls); [discriminate | reflexivity].
  - apply _set_default_raise_unchanged.
  - rewrite set_default_by_id_unfold.
    destruct (Category.classes c !! id_); [| reflexivity].
    apply _set_default_raise_unchanged.
Qed.

(** [register], the setter of [default] and [set_default_by_id] are all or
    nothing: when one of them raises, the category object is exactly what
    it was before the call, the two dicts and [default_id] included; and
    so is the getter of [default]. *)
Theorem run_op_raise_unchanged (E : Env) (o : Category.op) (c : Category.t) (e : exn) :
  fst (Category.run_op E o c) = Raise e ->
  snd (Category.run_op E o c) = c /\
  Category._get_default (snd (Category.run_op E o c)) = Category._get_default c.
Proof.
  intros H. apply op_raise_unchanged in H. by rewrite H.
Qed.

Lemma run_op_raise_unchanged_witness :
  snd (Category.run_op E0 (Category.OpSetDefault BrokenDialog) cat1) = cat1 /\
  Category._get_default (snd (Category.run_op E0 (Category.OpSetDefault BrokenDialog) cat1))
  = Category._get_default cat1.
Proof.
  apply (run_op_raise_unchanged E0 (Category.OpSetDefault BrokenDialog) cat1
           (ValueError (MsgInterface (IClass IDialog)))).
  vm_compute. reflexivity.
Defined.

(** ** What a category stores *)

(** In every state a category reaches, whatever the interpreter state of
    each call, every class stored in [classes] implements every interface
    of the category and is a key of [ids]. If the interpreter state was the
    same at every call, the entry is moreover keyed by the identity of the
    class it holds, and [ids] maps that class to the same identity. *)
Theorem reachable_classes_conform (c : Category.t) (k : string) (cls : PyClass) :
  Category.reachable c ->
  Category.classes c !! k = Some cls ->
  (forall i, In i (Category.interfaces c) -> is_implementation cls i = true) /\
  is_Some (Category.ids c !! cls) /\
  (forall E, Category.reachable_in E c ->
             _get_class_name E cls = Return k /\ Category.ids c !! cls = Some k).
Proof.
  intros Hr Hk. apply reachable_conform in Hr.
  split; [| split].
  - apply check_interfaces_Return. eapply cinv_conform; eauto.
  - eapply cinv_val_ids; eauto.
  - intros E HE. apply reachable_consistent in HE as [Hcons _].
    pose proof (inv_key E c Hcons _ _ Hk) as Hname.
    split; [exact Hname |].
    destruct (inv_val_ids E c Hcons _ _ Hk) as [n Hn].
    destruct (inv_ids E c Hcons _ _ Hn) as [Hname' _]. congruence.
Qed.

Lemma reachable_classes_conform_witness :
  (forall i, In i (Category.interfaces cat2) -> is_implementation FancyDialog i = true) /\
  is_Some (Category.ids cat2 !! FancyDialog) /\
  (forall E, Category.reachable_in E cat2 ->
             _get_class_name E FancyDialog
               = Return "/opt/emesene/plugins/fancy.py:FancyDialog" /\
             Category.ids cat2 !! FancyDialog
               = Some "/opt/emesene/plugins/fancy.py:FancyDialog").
Proof.
  apply (reachable_classes_conform cat2
           "/opt/emesene/plugins/fancy.py:FancyDialog" FancyDialog).
  - apply Category.reachable_step with (o := Category.OpRegister FancyDialog).
    apply (Category.reachable_init E0 "dialog" BasicDialog (Some [IClass IDialog])).
    vm_compute. reflexivity.
  - vm_compute. reflexivity.
Defined.

Lemma run_ops_grows_aux (E : Env) (ops : list Category.op) (c : Category.t) :
  grows c (run_ops E ops c).
Proof.
  revert c. induction ops as [|o ops IH]; intros c; simpl.
  - apply grows_refl.
  - eapply grows_trans; [apply run_op_grows | apply IH].
Qed.

(** No operation unregisters: after any list of operations the category has
    the name, the system default and the interfaces it had, and every
    identity that was a key of [classes] still is one. *)
Theorem run_ops_keeps_registered (E : Env) (ops : list Category.op) (c : Category.t) :
  Category.name (run_ops E ops c) = Category.name c /\
  Category.system_default (run_ops E ops c) = Category.system_default c /\
  Category.interfaces (run_ops E ops c) = Category.interfaces c /\
  (forall k, is_Some (Category.classes c !! k) ->
             is_Some (Category.classes (run_ops E ops c) !! k)).
Proof. apply run_ops_grows_aux. Qed.

Lemma reachable_system_default_conforms (c : Category.t) :
  Category.reachable c ->
  Category.check_interfaces (Category.system_default c) (Category.interfaces c)
  = Return tt.
Proof. intros Hr. apply reachable_conform in Hr. apply Hr. Qed.

(** ** [register] and the default *)

(** [register] never writes [default_id]. The getter of [default] answers
    as before when the identity of the registered class is not
    [default_id]; when [register] returns and the identity of the class
    is [default_id], the getter answers with the class just registered. *)
Theorem register_keeps_default (E : Env) (cls : PyClass) (c : Category.t) :
  Category.default_id (snd (Category.register E cls c)) = Category.default_id c /\
  (forall d cur,
     Category.default_id c = Some d ->
     Category.classes c !! d = Some cur ->
     _get_class_name E cls <> Return d ->
     fst (Category._get_default (snd (Category.register E cls c))) = Return cur) /\
  (forall d,
     Category.default_id c = Some d ->
     fst (Category.register E cls c) = Return tt ->
     _get_class_name E cls = Return d ->
     fst (Category._get_default (snd (Category.register E cls c))) = Return cls).
Proof.
  split; [apply register_grows |]. split.
  - intros d cur Hd Hcur Hne. rewrite register_unfold.
    destruct (Category.check_interfaces cls (Category.interfaces c));
      [| simpl; by rewrite _get_default_unfold, Hd, Hcur].
    destruct (_get_class_name E cls) as [n|];
      [| simpl; by rewrite _get_default_unfold, Hd, Hcur].
    simpl. rewrite _get_default_unfold. simpl. rewrite Hd.
    rewrite lookup_insert_ne by congruence. by rewrite Hcur.
  - intros d Hd. rewrite register_unfold.
    destruct (Category.check_interfaces cls (Category.interfaces c)); [| discriminate].
    destruct (_get_class_name E cls) as [n|]; [| discriminate].
    intros _ [= ->]. simpl. rewrite _get_default_unfold. simpl.
    by rewrite Hd, lookup_insert_eq.
Qed.

(** A registered class [A] and a class [B] with the same identity: once
    [B] is registered, assigning [A] to [default] returns, and the getter
    of [default] then answers [B], the class stored last under the shared
    identity. *)
Theorem default_setter_shared_identity (E : Env) (A B : PyClass)
    (c c1 : Category.t) (k : string) :
  Category.ids c !! A = Some k ->
  _get_class_name E A = Return k ->
  _get_class_name E B = Return k ->
  Category.register E B c = (Return tt, c1) ->
  exists c2,
    Category._set_default E A c1 = (Return tt, c2) /\
    Category._get_default c2 = (Return B, c2).
Proof.
  intros HA HnA HnB. rewrite register_unfold.
  destruct (Category.check_interfaces B (Category.interfaces c)) as [[]|];
    [| discriminate].
  rewrite HnB. intros [= <-].
  rewrite _set_default_unfold. simpl.
  assert (Hids : is_Some (<[B := k]> (Category.ids c) !! A)).
  { destruct (decide (B = A)) as [-> | Hne].
    - rewrite lookup_insert_eq. eauto.
    - rewrite lookup_insert_ne by done. eauto. }
  destruct Hids as [n ->]. rewrite HnA.
  eexists. split; [reflexivity |].
  rewrite _get_default_unfold. simpl. by rewrite lookup_insert_eq.
Qed.

Lemma default_setter_shared_identity_witness :
  exists c2,
    Category._set_default E0 GtkDialog (snd (Category.register E0 QtDialog cat_gtk))
      = (Return tt, c2) /\
    Category._get_default c2 = (Return QtDialog, c2).
Proof.
  apply (default_setter_shared_identity E0 GtkDialog QtDialog cat_gtk
           (snd (Category.register E0 QtDialog cat_gtk))
           "/opt/emesene/plugins/fancy.py:Dialog").
  - vm_compute. reflexivity.
  - reflexivity.
  - reflexivity.
  - vm_compute. reflexivity.
Defined.

(** ** The setter of [default] *)

(** In a state a category reaches, whatever the interpreter state of each
    call, assigning to [default] a class that has an identity and is either
    not registered yet and implements the interfaces, or registered under
    that very identity, returns; [default_id] is then that identity and the
    getter of [default] answers the class stored under it, which is the
    assigned class itself when it was not registered before the
    assignment. *)
Theorem default_setter_identity (E : Env) (c : Category.t) (cls : PyClass)
    (k : string) :
  Category.reachable c ->
  _get_class_name E cls = Return k ->
  (Category.ids c !! cls = None /\
   (forall i, In i (Category.interfaces c) -> is_implementation cls i = true)) \/
  Category.ids c !! cls = Some k ->
  exists c' cur,
    Category._set_default E cls c = (Return tt, c') /\
    Category.default_id c' = Some k /\
    Category.classes c' !! k = Some cur /\
    Category._get_default c' = (Return cur, c') /\
    (Category.ids c !! cls = None -> cur = cls).
Proof.
  intros Hr Hk Hcase. apply reachable_conform in Hr.
  destruct Hcase as [[Hids Hconf] | Hids].
  - destruct (_set_default_registers E c cls k Hids Hconf Hk)
      as (c' & Hset & Hcls & Hget).
    exists c', cls. split; [exact Hset |].
    assert (Hd : Category.default_id c' = Some k).
    { revert Hset. rewrite _set_default_unfold, Hids, register_unfold.
      apply check_interfaces_Return in Hconf. rewrite Hconf, Hk.
      by intros [= <-]. }
    split; [exact Hd |]. split; [| auto].
    rewrite Hcls. apply lookup_insert_eq.
  - destruct (cinv_ids c Hr _ _ Hids) as [cur Hcur].
    exists (Category.set_default_id k c), cur.
    rewrite _set_default_unfold, Hids, Hk.
    split; [reflexivity |]. split; [reflexivity |]. split; [exact Hcur |]. split.
    + rewrite _get_default_unfold. simpl. by rewrite Hcur.
    + discriminate.
Qed.

Lemma default_setter_identity_witness :
  exists c' cur,
    Category._set_default E0 FancyDialog cat1 = (Return tt, c') /\
    Category.default_id c' = Some "/opt/emesene/plugins/fancy.py:FancyDialog" /\
    Category.classes c' !! "/opt/emesene/plugins/fancy.py:FancyDialog" = Some cur /\
    Category._get_default c' = (Return cur, c') /\
    (Category.ids cat1 !! FancyDialog = None -> cur = FancyDialog).
Proof.
  apply (default_setter_identity E0 cat1 FancyDialog
           "/opt/emesene/plugins/fancy.py:FancyDialog").
  - apply (Category.reachable_init E0 "dialog" BasicDialog (Some [IClass IDialog])).
    vm_compute. reflexivity.
  - reflexivity.
  - left. split; [vm_compute; reflexivity |].
    intros i [<- | []]. reflexivity.
Defined.

(** ** How many extensions *)

(** When [register] returns, [get_extensions] has one entry more if the
    identity of the class was no key before, and as many entries as before
    if it was one (the entry is overwritten); the class is stored under its
    identity and every other key holds what it held. *)
Theorem register_size (E : Env) (cls : PyClass) (c c1 : Category.t) (k : string) :
  Category.register E cls c = (Return tt, c1) ->
  _get_class_name E cls = Return k ->
  Category.classes c1 !! k = Some cls /\
  (forall k', k' <> k -> Category.classes c1 !! k' = Category.classes c !! k') /\
  size (Category.classes c1)
  = match Category.classes c !! k with
    | None => S (size (Category.classes c))
    | Some _ => size (Category.classes c)
    end.
Proof.
  rewrite register_unfold.
  destruct (Category.check_interfaces cls (Category.interfaces c)) as [[]|];
    [| discriminate].
  intros Hreg Hk. rewrite Hk in Hreg. injection Hreg as <-. simpl.
  split; [apply lookup_insert_eq |]. split.
  - intros k' Hne. by rewrite lookup_insert_ne.
  - destruct (Category.classes c !! k) as [old|] eqn:Hold.
    + by erewrite map_size_insert_Some.
    + by rewrite map_size_insert_None.
Qed.

Lemma register_size_witness :
  Category.classes (snd (Category.register E0 FancyDialog cat1))
    !! "/opt/emesene/plugins/fancy.py:FancyDialog" = Some FancyDialog /\
  (forall k', k' <> "/opt/emesene/plugins/fancy.py:FancyDialog" ->
     Category.classes (snd (Category.register E0 FancyDialog cat1)) !! k'
     = Category.classes cat1 !! k') /\
  size (Category.classes (snd (Category.register E0 FancyDialog cat1)))
  = match Category.classes cat1 !! "/opt/emesene/plugins/fancy.py:FancyDialog" with
    | None => S (size (Category.classes cat1))
    | Some _ => size (Category.classes cat1)
    end.
Proof.
  apply (register_size E0 FancyDialog cat1).
  - vm_compute. reflexivity.
  - reflexivity.
Defined.

(** ** A category without interfaces *)

(** A category built with [interfaces] being [None] requires nothing: after
    any list of operations, [register] returns for every class that has an
    identity, whatever its attributes. *)
Theorem register_without_interfaces (E : Env) (name : string)
    (system_default cls : PyClass) (c : Category.t) (ops : list Category.op)
    (k : string) :
  Category.__init__ E name system_default None = Return c ->
  _get_class_name E cls = Return k ->
  exists c', Category.register E cls (run_ops E ops c) = (Return tt, c') /\
             Category.classes c' !! k = Some cls.
Proof.
  intros Hinit Hk. apply __init___Return in Hinit as (k0 & _ & _ & ->).
  rewrite register_unfold.
  destruct (run_ops_grows_aux E ops
              (Category.mk name system_default [] {[k0 := system_default]} ∅
                 {[system_default := k0]} (Some k0))) as (_ & _ & -> & _).
  simpl. rewrite Hk. eexists. split; [reflexivity |]. simpl.
  apply lookup_insert_eq.
Qed.

Lemma register_without_interfaces_witness :
  exists c',
    Category.register E0 BrokenDialog
      (run_ops E0 [Category.OpSetDefaultById "nonexistent"]
         (Category.mk "dialog" BasicDialog []
            {[ "/opt/emesene/dialogs.py:BasicDialog" := BasicDialog ]} ∅
            {[ BasicDialog := "/opt/emesene/dialogs.py:BasicDialog" ]}
            (Some "/opt/emesene/dialogs.py:BasicDialog")))
    = (Return tt, c') /\
    Category.classes c' !! "/opt/emesene/plugins/fancy.py:BrokenDialog"
    = Some BrokenDialog.
Proof.
  apply (register_without_interfaces E0 "dialog" BasicDialog BrokenDialog).
  - vm_compute. reflexivity.
  - reflexivity.
Defined.


(** ** The functions of the module on [_categories] *)

Lemma on_category_Some {A} (category_name : string) (c : Category.t)
    (m : Py Category.t A) (cats : Registry) :
  cats !! category_name = Some c ->
  (self <- get_category category_name ;; call_on category_name self m) cats
  = (fst (m c), <[category_name := snd (m c)]> cats).
Proof.
  intros Hc. unfold bind. rewrite get_category_unfold, Hc.
  unfold call_on. by destruct (m c).
Qed.

Lemma on_category_None {A} (category_name : string) (k : Category.t -> Py Registry A)
    (cats : Registry) :
  cats !! category_name = None ->
  (self <- get_category category_name ;; k self) cats
  = (Raise (KeyError category_name), cats).
Proof.
  intros Hc. unfold bind. by rewrite get_category_unfold, Hc.
Qed.

(** Every function that takes a category name raises [KeyError] with that
    name when no category was created under it, [register] included, and
    [_categories] stays as it was: nothing is created. *)
Theorem unknown_category_KeyError (E : Env) (category_name : string)
    (cats : Registry) :
  cats !! category_name = None ->
  get_category category_name cats = (Raise (KeyError category_name), cats) /\
  (forall cls,
     register E category_name cls cats = (Raise (KeyError category_name), cats)) /\
  get_extensions category_name cats = (Raise (KeyError category_name), cats) /\
  get_default category_name cats = (Raise (KeyError category_name), cats) /\
  (forall cls,
     set_default E category_name cls cats = (Raise (KeyError category_name), cats)) /\
  (forall id_,
     set_default_by_id E category_name id_ cats
     = (Raise (KeyError category_name), cats)) /\
  get_system_default category_name cats = (Raise (KeyError category_name), cats).
Proof.
  intros Hc. repeat split; intros;
    first [ by apply on_category_None
          | by rewrite get_category_unfold, Hc
          | by rewrite set_default_raises, Hc ].
Qed.

Lemma unknown_category_KeyError_witness :
  get_category "gtk dialog" cats1 = (Raise (KeyError "gtk dialog"), cats1) /\
  (forall cls,
     register E0 "gtk dialog" cls cats1 = (Raise (KeyError "gtk dialog"), cats1)) /\
  get_extensions "gtk dialog" cats1 = (Raise (KeyError "gtk dialog"), cats1) /\
  get_default "gtk dialog" cats1 = (Raise (KeyError "gtk dialog"), cats1) /\
  (forall cls,
     set_default E0 "gtk dialog" cls cats1 = (Raise (KeyError "gtk dialog"), cats1)) /\
  (forall id_,
     set_default_by_id E0 "gtk dialog" id_ cats1
     = (Raise (KeyError "gtk dialog"), cats1)) /\
  get_system_default "gtk dialog" cats1 = (Raise (KeyError "gtk dialog"), cats1).
Proof.
  apply (unknown_category_KeyError E0 "gtk dialog" cats1).
  vm_compute. reflexivity.
Defined.

(** The functions that read answer from the category stored under the
    name and leave [_categories] as it was: [get_category] returns the
    object, [get_extensions] its dict [classes], [get_system_default] its
    system default, and [get_default] what the getter of [default] answers
    on it. *)
Theorem accessors_read_only (category_name : string) (c : Category.t)
    (cats : Registry) :
  cats !! category_name = Some c ->
  get_category category_name cats = (Return c, cats) /\
  get_extensions category_name cats = (Return (Category.classes c), cats) /\
  get_default category_name cats = (fst (Category._get_default c), cats) /\
  get_system_default category_name cats = (Return (Category.system_default c), cats).
Proof.
  intros Hc. split; [by rewrite get_category_unfold, Hc |]. split; [| split].
  - by apply call_unchanged with (c := c).
  - apply call_unchanged with (c := c); [exact Hc |].
    rewrite _get_default_unfold.
    destruct (Category.default_id c) as [d|]; [| reflexivity].
    destruct (Category.classes c !! d); reflexivity.
  - unfold get_system_default, bind. by rewrite get_category_unfold, Hc.
Qed.

Lemma accessors_read_only_witness :
  get_category "dialog" cats1 = (Return cat1, cats1) /\
  get_extensions "dialog" cats1 = (Return (Category.classes cat1), cats1) /\
  get_default "dialog" cats1 = (fst (Category._get_default cat1), cats1) /\
  get_system_default "dialog" cats1 = (Return (Category.system_default cat1), cats1).
Proof.
  apply (accessors_read_only "dialog" cat1 cats1).
  vm_compute. reflexivity.
Defined.

(** What a call does to [_categories]: nothing, or one operation on the
    category stored under a name, or a new category stored under a name. *)
Lemma exec_cases (E : Env) (k : call) (cats : Registry) :
  snd (exec E k cats) = cats \/
  (exists n c o,
     cats !! n = Some c /\
     exec E k cats
     = (fst (Category.run_op E o c), <[n := snd (Category.run_op E o c)]> cats)) \/
  (exists n sd ifs c0,
     Category.__init__ E n sd (Some ifs) = Return c0 /\
     exec E k cats = (Return tt, <[n := c0]> cats)).
Proof.
  destruct k as [n sd ifs | n cls | n | | n | n | n cls | n id_ | n]; simpl.
  - rewrite category_register_unfold.
    destruct (Category.__init__ E n sd (Some ifs)) as [c0|] eqn:Hinit.
    + right. right. by exists n, sd, ifs, c0.
    + by left.
  - destruct (cats !! n) as [c|] eqn:Hc.
    + right. left. exists n, c, (Category.OpRegister cls).
      split; [exact Hc |]. by apply on_category_Some.
    + left. unfold register. by rewrite on_category_None.
  - left. unfold bind. rewrite get_category_unfold. by destruct (cats !! n).
  - by left.
  - left. unfold bind at 1. destruct (cats !! n) as [c|] eqn:Hc.
    + unfold get_extensions. by rewrite (call_unchanged n c _ (Return (Category.classes c))).
    + unfold get_extensions. by rewrite on_category_None.
  - left. unfold bind at 1. destruct (cats !! n) as [c|] eqn:Hc.
    + unfold get_default.
      rewrite (call_unchanged n c _ (fst (Category._get_default c))); auto.
      * by destruct (fst (Category._get_default c)).
      * rewrite _get_default_unfold.
        destruct (Category.default_id c) as [d|]; [| reflexivity].
        destruct (Category.classes c !! d); reflexivity.
    + unfold get_default. by rewrite on_category_None.
  - left. rewrite set_default_raises. by destruct (cats !! n).
  - destruct (cats !! n) as [c|] eqn:Hc.
    + right. left. exists n, c, (Category.OpSetDefaultById id_).
      split; [exact Hc |]. by apply on_category_Some.
    + left. unfold set_default_by_id. by rewrite on_category_None.
  - left. unfold bind at 1. unfold get_system_default, bind.
    rewrite get_category_unfold. by destruct (cats !! n).
Qed.

(** A call that raises leaves [_categories] as it was, whichever function
    was called: no category is added, replaced or changed by a failed
    call. *)
Theorem exec_raise_unchanged (E : Env) (k : call) (cats : Registry) (e : exn) :
  fst (exec E k cats) = Raise e ->
  snd (exec E k cats) = cats.
Proof.
  intros Hraise.
  destruct (exec_cases E k cats)
    as [H | [(n & c & o & Hc & H) | (n & sd & ifs & c0 & _ & H)]].
  - exact H.
  - rewrite H in *. simpl in *.
    rewrite (op_raise_unchanged E o c e Hraise). by apply insert_id.
  - rewrite H in Hraise. discriminate.
Qed.

Lemma exec_raise_unchanged_witness :
  snd (exec E0 (CallSetDefaultById "dialog" "nonexistent") cats2) = cats2.
Proof.
  apply (exec_raise_unchanged E0 (CallSetDefaultById "dialog" "nonexistent") cats2
           (ValueError (MsgUnregisteredId "dialog"))).
  vm_compute. reflexivity.
Defined.

(** A call on one category name leaves the category stored under every
    other name as it was. *)
Theorem other_categories_untouched (E : Env) (n m : string) (cats : Registry) :
  m <> n ->
  (forall sd ifs, snd (category_register E n sd ifs cats) !! m = cats !! m) /\
  (forall cls, snd (register E n cls cats) !! m = cats !! m) /\
  (forall cls, snd (set_default E n cls cats) !! m = cats !! m) /\
  (forall id_, snd (set_default_by_id E n id_ cats) !! m = cats !! m).
Proof.
  intros Hne.
  assert (Hon : forall (A : Type) (f : Py Category.t A),
            snd ((self <- get_category n ;; call_on n self f) cats) !! m = cats !! m).
  { intros A f. destruct (cats !! n) as [c|] eqn:Hc.
    - rewrite (on_category_Some n c f cats Hc). simpl. by rewrite lookup_insert_ne.
    - by rewrite on_category_None. }
  split; [| split; [| split]].
  - intros sd ifs. rewrite category_register_unfold.
    destruct (Category.__init__ E n sd (Some ifs)); simpl; [| reflexivity].
    by rewrite lookup_insert_ne.
  - intros cls. apply Hon.
  - intros cls. rewrite set_default_raises. by destruct (cats !! n).
  - intros id_. apply Hon.
Qed.

Lemma other_categories_untouched_witness :
  (forall sd ifs,
     snd (category_register E0 "gtk dialog" sd ifs cats2) !! "dialog"
     = cats2 !! "dialog") /\
  (forall cls, snd (register E0 "gtk dialog" cls cats2) !! "dialog" = cats2 !! "dialog") /\
  (forall cls, snd (set_default E0 "gtk dialog" cls cats2) !! "dialog" = cats2 !! "dialog") /\
  (forall id_,
     snd (set_default_by_id E0 "gtk dialog" id_ cats2) !! "dialog" = cats2 !! "dialog").
Proof.
  apply (other_categories_untouched E0 "gtk dialog" "dialog" cats2).
  discriminate.
Defined.

(** Whatever the calls and the interpreter state of each, every category
    of [_categories] is in a state its constructor and its operations lead
    to, and it is stored under its own name. *)
Lemma run_calls_reachable (calls : list (Env * call)) (cats : Registry) :
  (forall n c, cats !! n = Some c -> Category.reachable c /\ Category.name c = n) ->
  forall n c, run_calls calls cats !! n = Some c ->
              Category.reachable c /\ Category.name c = n.
Proof.
  revert cats. induction calls as [|[E k] calls IH]; intros cats Hinv; simpl;
    [exact Hinv |].
  apply IH. intros n c.
  destruct (exec_cases E k cats)
    as [-> | [(n' & c' & o & Hc' & ->) | (n' & sd & ifs & c0 & Hinit & ->)]];
    simpl.
  - apply Hinv.
  - destruct (Hinv _ _ Hc') as [Hr Hname].
    destruct (decide (n' = n)) as [-> | Hne].
    + rewrite lookup_insert_eq. intros [= <-]. split.
      * by apply Category.reachable_step.
      * destruct (run_op_grows E o c') as (-> & _). exact Hname.
    + rewrite lookup_insert_ne by done. apply Hinv.
  - destruct (decide (n' = n)) as [-> | Hne].
    + rewrite lookup_insert_eq. intros [= <-]. split.
      * eapply Category.reachable_init, Hinit.
      * apply __init___Return in Hinit as (k0 & _ & _ & ->). reflexivity.
    + rewrite lookup_insert_ne by done. apply Hinv.
Qed.

Lemma run_calls_reachable_in (E : Env) (calls : list (Env * call)) (cats : Registry) :
  Forall (fun ek => fst ek = E) calls ->
  (forall n c, cats !! n = Some c -> Category.reachable_in E c) ->
  forall n c, run_calls calls cats !! n = Some c -> Category.reachable_in E c.
Proof.
  revert cats. induction calls as [|[E' k] calls IH]; intros cats Hall Hinv; simpl;
    [exact Hinv |].
  apply Forall_cons in Hall as [HE Hall]. simpl in HE. subst E'.
  apply IH; [exact Hall |]. intros n c.
  destruct (exec_cases E k cats)
    as [-> | [(n' & c' & o & Hc' & ->) | (n' & sd & ifs & c0 & Hinit & ->)]];
    simpl.
  - apply Hinv.
  - destruct (decide (n' = n)) as [-> | Hne].
    + rewrite lookup_insert_eq. intros [= <-].
      apply Category.reachable_in_step. eapply Hinv, Hc'.
    + rewrite lookup_insert_ne by done. apply Hinv.
  - destruct (decide (n' = n)) as [-> | Hne].
    + rewrite lookup_insert_eq. intros [= <-].
      eapply Category.reachable_in_init, Hinit.
    + rewrite lookup_insert_ne by done. apply Hinv.
Qed.

(** Starting from the empty [_categories], after any list of calls, each
    in its own interpreter state, for every category that exists: it is
    stored under its own name; [get_system_default] returns its system
    default, which implements every interface of the category; and a class
    that [get_default] returns implements every interface of the category.
    If the interpreter state was the same at every call, [get_default]
    does return. *)
Theorem get_default_after_calls (calls : list (Env * call)) (n : string)
    (c : Category.t) :
  run_calls calls ∅ !! n = Some c ->
  Category.name c = n /\
  get_system_default n (run_calls calls ∅)
    = (Return (Category.system_default c), run_calls calls ∅) /\
  (forall i, In i (Category.interfaces c) ->
             is_implementation (Category.system_default c) i = true) /\
  (forall cls, fst (get_default n (run_calls calls ∅)) = Return cls ->
     forall i, In i (Category.interfaces c) -> is_implementation cls i = true) /\
  (forall E, Forall (fun ek => fst ek = E) calls ->
     exists cls, get_default n (run_calls calls ∅) = (Return cls, run_calls calls ∅)).
Proof.
  intros Hc.
  destruct (run_calls_reachable calls ∅) with (n := n) (c := c) as [Hr Hname];
    [intros n' c'; by rewrite lookup_empty | exact Hc |].
  assert (Hget : get_default n (run_calls calls ∅)
                 = (fst (Category._get_default c), run_calls calls ∅)).
  { apply call_unchanged with (c := c); [exact Hc |].
    rewrite _get_default_unfold.
    destruct (Category.default_id c) as [d|]; [| reflexivity].
    destruct (Category.classes c !! d); reflexivity. }
  split; [exact Hname |]. split; [| split; [| split]].
  - unfold get_system_default, bind. by rewrite get_category_unfold, Hc.
  - apply check_interfaces_Return. by apply reachable_system_default_conforms.
  - intros cls. rewrite Hget, _get_default_unfold. simpl.
    destruct (Category.default_id c) as [d|]; [| discriminate].
    destruct (Category.classes c !! d) as [cur|] eqn:Hcur; [| discriminate].
    simpl. intros [= <-]. apply check_interfaces_Return.
    apply reachable_conform in Hr. eapply cinv_conform; eauto.
  - intros E Hall.
    assert (HrE : Category.reachable_in E c).
    { apply (run_calls_reachable_in E calls ∅ Hall) with (n := n); [| exact Hc].
      intros n' c'. by rewrite lookup_empty. }
    apply reachable_consistent in HrE as (_ & (d & Hd & [cls Hcls]) & _).
    exists cls. rewrite Hget, _get_default_unfold, Hd, Hcls. reflexivity.
Qed.

Lemma get_default_after_calls_witness :
  Category.name cat1 = "dialog" /\
  get_system_default "dialog" cats1 = (Return (Category.system_default cat1), cats1) /\
  (forall i, In i (Category.interfaces cat1) ->
             is_implementation (Category.system_default cat1) i = true) /\
  (forall cls, fst (get_default "dialog" cats1) = Return cls ->
     forall i, In i (Category.interfaces cat1) -> is_implementation cls i = true) /\
  (forall E,
     Forall (fun ek => fst ek = E)
       [(E0, CallCategoryRegister "dialog" BasicDialog [IClass IDialog]);
        (E0, CallRegister "dialog" BrokenDialog);
        (E0, CallSetDefault "dialog" FancyDialog)] ->
     exists cls, get_default "dialog" cats1 = (Return cls, cats1)).
Proof.
  apply (get_default_after_calls
           [(E0, CallCategoryRegister "dialog" BasicDialog [IClass IDialog]);
            (E0, CallRegister "dialog" BrokenDialog);
            (E0, CallSetDefault "dialog" FancyDialog)] "dialog" cat1).
  vm_compute. reflexivity.
Defined.

(** ** Registering through the module *)

(** [register] of a class that implements every interface of an existing
    category and has an identity returns; afterwards [get_extensions] of
    that name holds the class under its identity and, under every other
    key, what it held before. *)
Theorem register_conforming (E : Env) (cats : Registry) (category_name : string)
    (c : Category.t) (cls : PyClass) (k : string) :
  cats !! category_name = Some c ->
  (forall i, In i (Category.interfaces c) -> is_implementation cls i = true) ->
  _get_class_name E cls = Return k ->
  exists cats' exts,
    register E category_name cls cats = (Return tt, cats') /\
    get_extensions category_name cats' = (Return exts, cats') /\
    exts !! k = Some cls /\
    (forall k', k' <> k -> exts !! k' = Category.classes c !! k').
Proof.
  intros Hc Hconf Hk. apply check_interfaces_Return in Hconf.
  unfold register. rewrite (on_category_Some _ c _ _ Hc).
  rewrite register_unfold, Hconf, Hk. simpl.
  eexists _, _. split; [reflexivity |]. split.
  - eapply call_unchanged; [apply lookup_insert_eq | reflexivity].
  - simpl. split; [apply lookup_insert_eq |].
    intros k' Hne. by rewrite lookup_insert_ne.
Qed.

Lemma register_conforming_witness :
  exists cats' exts,
    register E0 "dialog" FancyDialog cats1 = (Return tt, cats') /\
    get_extensions "dialog" cats' = (Return exts, cats') /\
    exts !! "/opt/emesene/plugins/fancy.py:FancyDialog" = Some FancyDialog /\
    (forall k', k' <> "/opt/emesene/plugins/fancy.py:FancyDialog" ->
                exts !! k' = Category.classes cat1 !! k').
Proof.
  apply (register_conforming E0 cats1 "dialog" cat1 FancyDialog).
  - vm_compute. reflexivity.
  - intros i [<- | []]. reflexivity.
  - reflexivity.
Defined.

(** ** [is_implementation] and the attributes of a class *)

Lemma lookup_attr_In (attrs : list (string * attr_kind)) (n : string) :
  (exists v, lookup_attr attrs n = Some v) <-> In n (map fst attrs).
Proof.
  induction attrs as [|[a v] attrs IH]; simpl.
  - split; [intros [v [=]] | intros []].
  - destruct (String.eqb a n) eqn:Han.
    + apply String.eqb_eq in Han. split; [auto | eauto].
    + apply String.eqb_neq in Han. rewrite IH. split; [auto | intros [| ]; done].
Qed.

Lemma hasattr_In (cls : PyClass) (n : string) :
  hasattr cls n = true <-> In n (map fst (cls_attrs cls)).
Proof.
  rewrite <- lookup_attr_In. unfold hasattr.
  destruct (lookup_attr (cls_attrs cls) n); split; eauto; try discriminate.
  intros [v [=]].
Qed.

Lemma is_implementation_public (cls : PyClass) (i : interface) :
  is_implementation cls i = true <->
  forall n, In n (dir i) -> startswith n "_" = false -> hasattr cls n = true.
Proof.
  unfold is_implementation. rewrite all_present_true. split.
  - intros H n Hin Hpub. apply H. apply filter_In. split; [exact Hin |].
    by rewrite Hpub.
  - intros H n Hin. apply filter_In in Hin as [Hin Hpub].
    apply H; [exact Hin |]. by destruct (startswith n "_").
Qed.

Lemma is_implementation_more_attrs (A B : PyClass) (i : interface) :
  (forall n, hasattr A n = true -> hasattr B n = true) ->
  is_implementation A i = true ->
  is_implementation B i = true.
Proof.
  rewrite !is_implementation_public. intros Hsub HA n Hin Hpub.
  apply Hsub. by apply HA.
Qed.

(** A class implements itself: a category whose only interface is its own
    system default can always be built, provided the class has an
    identity. *)
Theorem class_implements_itself (E : Env) (name : string) (A : PyClass) (k : string) :
  _get_class_name E A = Return k ->
  is_implementation A (IClass A) = true /\
  Category.__init__ E name A (Some [IClass A])
  = Return (Category.mk name A [IClass A] {[ k := A ]} ∅ {[ A := k ]} (Some k)).
Proof.
  intros Hk.
  assert (HA : is_implementation A (IClass A) = true).
  { apply is_implementation_public. intros n Hin _. by apply hasattr_In. }
  split; [exact HA |].
  unfold Category.__init__. rewrite _set_default_unfold. simpl.
  rewrite lookup_empty, register_unfold. simpl. by rewrite HA, Hk.
Qed.

Lemma class_implements_itself_witness :
  is_implementation IDialog (IClass IDialog) = true /\
  Category.__init__ E0 "dialog" IDialog (Some [IClass IDialog])
  = Return (Category.mk "dialog" IDialog [IClass IDialog]
              {[ "/opt/emesene/dialogs.py:IDialog" := IDialog ]} ∅
              {[ IDialog := "/opt/emesene/dialogs.py:IDialog" ]}
              (Some "/opt/emesene/dialogs.py:IDialog")).
Proof.
  apply (class_implements_itself E0 "dialog" IDialog "/opt/emesene/dialogs.py:IDialog").
  reflexivity.
Defined.

(** A class that has every attribute of a class stored in a category (a
    subclass of it, for one) is accepted by [register] of that category, if
    it has an identity: the check looks at nothing but the presence of
    names. *)
Theorem register_substitute (E : Env) (c : Category.t) (A B : PyClass)
    (k kA : string) :
  Category.reachable c ->
  Category.classes c !! k = Some B ->
  (forall n, hasattr B n = true -> hasattr A n = true) ->
  _get_class_name E A = Return kA ->
  exists c', Category.register E A c = (Return tt, c') /\
             Category.classes c' !! kA = Some A.
Proof.
  intros Hr HB Hsub HkA. apply reachable_conform in Hr.
  pose proof (cinv_conform c Hr _ _ HB) as HBc.
  assert (HAc : Category.check_interfaces A (Category.interfaces c) = Return tt).
  { apply check_interfaces_Return. intros i Hi.
    apply (is_implementation_more_attrs B A i Hsub).
    by apply (proj1 (check_interfaces_Return B (Category.interfaces c)) HBc). }
  rewrite register_unfold, HAc, HkA. eexists. split; [reflexivity |].
  simpl. apply lookup_insert_eq.
Qed.

Lemma register_substitute_witness :
  exists c', Category.register E0 QtDialog cat_gtk = (Return tt, c') /\
             Category.classes c' !! "/opt/emesene/plugins/fancy.py:Dialog"
             = Some QtDialog.
Proof.
  apply (register_substitute E0 cat_gtk QtDialog GtkDialog
           "/opt/emesene/plugins/fancy.py:Dialog").
  - apply (Category.reachable_init E0 "dialog" GtkDialog (Some [IClass IDialog])).
    vm_compute. reflexivity.
  - vm_compute. reflexivity.
  - intros n Hn. apply hasattr_In. apply hasattr_In in Hn.
    destruct Hn as [<- | []]. left. reflexivity.
  - reflexivity.
Defined.

(** ** Byte-code and source files *)

Lemma length_append (p s : string) :
  String.length (p ++ s) = String.length p + String.length s.
Proof.
  induction p as [|a p IH]; [reflexivity |].
  rewrite append_cons. simpl. by rewrite IH.
Qed.

Lemma substring_append_skip (p s : string) (n : nat) :
  substring (String.length p) n (p ++ s) = substring 0 n s.
Proof.
  induction p as [|a p IH]; [reflexivity |].
  rewrite append_cons. simpl. exact IH.
Qed.

Lemma substring_append_take (p s : string) (n : nat) :
  substring 0 (String.length p + n) (p ++ s) = (p ++ substring 0 n s)%string.
Proof.
  induction p as [|a p IH]; [reflexivity |].
  rewrite !append_cons. simpl. by rewrite IH.
Qed.

Lemma substring_split (s : string) (n : nat) :
  n <= String.length s ->
  s = (substring 0 n s ++ substring n (String.length s - n) s)%string.
Proof.
  revert n. induction s as [|a s IH]; intros [|n] Hn; simpl in *.
  - reflexivity.
  - lia.
  - rewrite append_nil. f_equal.
    clear. induction s as [|b s IH]; simpl; [reflexivity | by rewrite <- IH].
  - rewrite append_cons. f_equal. apply IH. lia.
Qed.

Lemma endswith_suffix (s suf : string) :
  endswith s suf = true -> exists pre, s = (pre ++ suf)%string.
Proof.
  unfold endswith. intros H. apply andb_prop in H as [Hlen Heq].
  apply Nat.leb_le in Hlen. apply String.eqb_eq in Heq.
  exists (substring 0 (String.length s - String.length suf) s).
  assert (Hs := substring_split s (String.length s - String.length suf)).
  replace (String.length s - (String.length s - String.length suf))
    with (String.length suf) in Hs by lia.
  rewrite Heq in Hs. apply Hs. lia.
Qed.

Lemma append_py_not_pyc (p pre : string) :
  (p ++ ".py")%string <> (pre ++ ".pyc")%string.
Proof.
  revert p. induction pre as [|b pre IH]; intros p H.
  - rewrite append_nil in H.
    assert (Hlen : String.length p = 1).
    { apply (f_equal String.length) in H. rewrite length_append in H.
      simpl in H. lia. }
    destruct p as [|a [|a' p]]; simpl in Hlen; discriminate.
  - destruct p as [|a p].
    + apply (f_equal String.length) in H.
      rewrite append_nil, append_cons in H. simpl in H.
      rewrite length_append in H. simpl in H. lia.
    + rewrite !append_cons in H. injection H as _ H. by apply (IH p).
Qed.

Lemma endswith_pyc (p : string) : endswith (p ++ ".pyc") ".pyc" = true.
Proof.
  unfold endswith. rewrite length_append. simpl String.length.
  apply andb_true_intro. split; [apply Nat.leb_le; lia |].
  replace (String.length p + 4 - 4) with (String.length p) by lia.
  by rewrite substring_append_skip.
Qed.

Lemma drop_last_pyc (p : string) : drop_last (p ++ ".pyc") = (p ++ ".py")%string.
Proof.
  unfold drop_last. rewrite length_append. simpl String.length.
  replace (String.length p + 4 - 1) with (String.length p + 3) by lia.
  by rewrite substring_append_take.
Qed.

Lemma endswith_py (p : string) : endswith (p ++ ".py") ".pyc" = false.
Proof.
  destruct (endswith (p ++ ".py") ".pyc") eqn:H; [| reflexivity].
  apply endswith_suffix in H as [pre H]. by apply append_py_not_pyc in H.
Qed.

(** The identity does not tell a module loaded from byte-code from the
    same module loaded from source: a class whose module file is
    [p.pyc] and a class of the same [__name__] whose module file is [p.py]
    get the same identity, [p.py:name]. *)
Theorem compiled_module_same_identity (E : Env) (A B : PyClass)
    (fileA fileB p : string) :
  sys_modules E !! cls_module A = Some (Some fileA) ->
  sys_modules E !! cls_module B = Some (Some fileB) ->
  os_path_abspath E fileA = (p ++ ".pyc")%string ->
  os_path_abspath E fileB = (p ++ ".py")%string ->
  cls_name A = cls_name B ->
  _get_class_name E A = Return ((p ++ ".py") ++ ":" ++ cls_name A)%string /\
  _get_class_name E B = _get_class_name E A.
Proof.
  intros HA HB HfA HfB Hname. unfold _get_class_name.
  rewrite HA, HB, HfA, HfB, endswith_pyc, drop_last_pyc, endswith_py, Hname.
  split; reflexivity.
Qed.

Lemma compiled_module_same_identity_witness :
  _get_class_name E1 LegacyCompiled
    = Return (("/opt/emesene/legacy" ++ ".py") ++ ":" ++ cls_name LegacyCompiled)%string /\
  _get_class_name E1 LegacySource = _get_class_name E1 LegacyCompiled.
Proof.
  apply (compiled_module_same_identity E1 LegacyCompiled LegacySource
           "/opt/emesene/legacy.pyc" "/opt/emesene/legacy.py" "/opt/emesene/legacy");
    reflexivity.
Defined.
